(** * Shoot secrets manager (pkg/operation/shootsecrets/secrets_manager.go)

    A shallow embedding of the [SecretsManager] of gardener's [shootsecrets]
    package, and the properties of its two operations, [Generate] and [Deploy].

    Conventions of the embedding.
    - A Go [(value, error)] return is a [result]; a lone [error] return is an
      [option error] ([None] is Go's [nil]).
    - Go maps are [gmap]s, slices are lists, [*T] pointers to immutable
      payloads are the payloads.
    - The methods mutate the manager in place: here they take the manager and
      return the updated one.
    - Everything outside the manager that a call can touch (the cluster behind
      the [client.Client], and the sequence of calls made to collaborators) is
      the [World], threaded by the state monad [M].
    - Collaborators are values of function type, as their Go signatures say.
      The configuration generator, [GenerateFromInfoData] and the methods of
      [infodata.InfoData] answer from their arguments. [Generate] and
      [GenerateInfoData] synthesise fresh material on every call: what a call
      returns may depend on everything that happened before it (a synthesis
      may fail once and succeed when tried again), so these methods answer
      from the calls made so far. The client answers from the cluster.
    - A call through a nil func value panics in Go: operations return a
      [completion], which is a normal return or a panic. *)

From Stdlib Require Import Strings.Byte.
From stdpp Require Import base option strings list gmap fin_maps.

Set Default Proof Using "Type".

(** ** Go basics *)

Definition error := string.

Inductive result (A : Type) : Type :=
| Ok (a : A)
| Err (e : error).
Arguments Ok {A} a.
Arguments Err {A} e.

Inductive completion : Type :=
| Return (err : option error)
| Panic (msg : string).

Definition nilFuncCall : string :=
  "invalid memory address or nil pointer dereference".

(** ** k8s.io/apimachinery/pkg/apis/meta/v1 and k8s.io/api/core/v1: the part
    of a [Secret] the manager writes *)
Module metav1.

Record ObjectMeta := { Name : string; Namespace : string }.

#[global] Instance ObjectMeta_eq_dec : EqDecision ObjectMeta.
Proof. solve_decision. Defined.

End metav1.

Module corev1.

Inductive SecretType := SecretTypeOpaque | SecretTypeTLS.

Record Secret := {
  ObjectMeta : metav1.ObjectMeta;
  Type_ : SecretType;
  Data : gmap string (list byte)
}.

End corev1.

(** ** sigs.k8s.io/controller-runtime/pkg/client: the one method the manager calls.
    [K] is the state of the cluster behind the client. *)
Module client.

Record Client (K : Type) := {
  Create : corev1.Secret → K → option error * K
}.
Arguments Create {K} _ _ _.

End client.

(** ** The world outside the manager, and the monad that threads it *)

Inductive Call :=
| CallSecretConfigGenerator
| CallGenerateInfoData (name : string)
| CallGenerate (name : string)
| CallGenerateFromInfoData (name : string)
| CallCreate (secret : corev1.Secret).

Record World (K : Type) := {
  cluster : K;
  calls : list Call
}.
Arguments cluster {K} _.
Arguments calls {K} _.

Definition M (K A : Type) : Type := World K → A * World K.

Definition ret {K A} (a : A) : M K A := λ w, (a, w).

Definition bind {K A B} (m : M K A) (k : A → M K B) : M K B :=
  λ w, let (a, w') := m w in k a w'.

Notation "x <~ m ;; k" := (bind m (λ x, k))
  (at level 100, m at next level, right associativity).

(** Record that a collaborator is called. *)
Definition call {K} (c : Call) : M K unit :=
  λ w, (tt, {| cluster := cluster w; calls := calls w ++ [c] |}).

(** Call a collaborator whose answer depends on what happened so far: it is
    given the calls made before this one. *)
Definition ask {K A} (c : Call) (answer : list Call → A) : M K A :=
  λ w, (answer (calls w), {| cluster := cluster w; calls := calls w ++ [c] |}).

(** Run a client request against the cluster. *)
Definition request {K A} (f : K → A * K) : M K A :=
  λ w, let (a, k) := f (cluster w) in (a, {| cluster := k; calls := calls w |}).

(** ** pkg/apis/core/v1alpha1/helper: the list of encoded records *)
Module helper.

Record GardenerResourceData := {
  Name : string;
  Type_ : string;
  Data : list byte
}.

Definition GardenerResourceDataList := list GardenerResourceData.

(** Modelled from the spec: [GardenerResourceDataList.Get] is not among the
    sources. The Encoded Record Store is "an ordered collection of named
    encoded credential records, supporting get-by-name"; [Get] returns the
    first record under the name, or nothing. *)
Fixpoint Get (g : GardenerResourceDataList) (name : string)
  : option GardenerResourceData :=
  match g with
  | [] => None
  | entry :: rest => if decide (Name entry = name) then Some entry else Get rest name
  end.

(** Modelled from the spec: the store's upsert-by-name is not among the
    sources: "insert if absent, otherwise no-op or explicit overwrite". A
    record under the name has its type and data overwritten where it stands,
    otherwise the record is appended. *)
Fixpoint Upsert (g : GardenerResourceDataList) (data : GardenerResourceData)
  : GardenerResourceDataList :=
  match g with
  | [] => [data]
  | obj :: rest =>
      if decide (Name obj = Name data)
      then {| Name := Name obj; Type_ := Type_ data; Data := Data data |} :: rest
      else obj :: Upsert rest data
  end.

End helper.

(** ** pkg/utils/infodata *)
Module infodata.

(** The [InfoData] interface: what its two methods return. *)
Record InfoData := {
  TypeVersion : string;
  Marshal : result (list byte)
}.

(** Modelled from the spec: [infodata.UpsertInfoData] is not among the
    sources. It converts the material "to its encoded form" (which can fail:
    [EncodingError]) and upserts it "into the store under this name". The
    list it is handed by pointer is returned next to the error. *)
Definition UpsertInfoData (resourceDataList : helper.GardenerResourceDataList)
    (name : string) (data : InfoData)
  : option error * helper.GardenerResourceDataList :=
  match Marshal data with
  | Err e => (Some e, resourceDataList)
  | Ok bytes =>
      (None,
       helper.Upsert resourceDataList
         {| helper.Name := name;
            helper.Type_ := TypeVersion data;
            helper.Data := bytes |})
  end.

(** Modelled from the spec: [infodata.GetInfoData] is not among the sources.
    [EncodedRecordStore.Get(name) -> (decoded record | absent)], failing with
    [RecordLookupError] when "a record exists but cannot be decoded". The
    decoder of the registered record types is the parameter [Unmarshal]. *)
Definition GetInfoData
    (Unmarshal : helper.GardenerResourceData → result InfoData)
    (resourceDataList : helper.GardenerResourceDataList) (name : string)
  : result (option InfoData) :=
  match helper.Get resourceDataList name with
  | None => Ok None
  | Some resourceData =>
      match Unmarshal resourceData with
      | Err e => Err e
      | Ok data => Ok (Some data)
      end
  end.

End infodata.

(** ** pkg/utils/secrets *)
Module secrets.

(** The [DataInterface] interface. *)
Record DataInterface := {
  SecretData : gmap string (list byte)
}.

(** The [ConfigInterface] interface: a name and what each method returns.
    [Generate] and [GenerateInfoData] are called anew wherever the manager
    needs material, and answer from the calls made so far. *)
Record ConfigInterface := {
  GetName : string;
  Generate : list Call → result DataInterface;
  GenerateInfoData : list Call → result infodata.InfoData;
  GenerateFromInfoData : infodata.InfoData → result DataInterface
}.

Section GenerateClusterSecrets.
Context {K : Type}.
Variable k8sClusterClient : client.Client K.
Variable existingSecretsMap : gmap string corev1.Secret.
Variable namespace : string.
Variable SecretsGeneratorFunc : ConfigInterface → M K (result DataInterface).

(** Modelled from the spec: what [GenerateClusterSecretsWithFunc] does for
    one configuration. "Resolve its materialized credential", "then ensure
    a runtime object exists for this name": an object of the existing
    objects is reused unchanged, otherwise a new opaque object with the
    name, the namespace and the resolved payload is created through the
    client. *)
Definition ensureSecret (s : ConfigInterface) : M K (result corev1.Secret) :=
  r <~ SecretsGeneratorFunc s;;
  match r with
  | Err e => ret (Err e)
  | Ok obj =>
      match existingSecretsMap !! GetName s with
      | Some existingSecret => ret (Ok existingSecret)
      | None =>
          let secret :=
            {| corev1.ObjectMeta := {| metav1.Name := GetName s;
                                       metav1.Namespace := namespace |};
               corev1.Type_ := corev1.SecretTypeOpaque;
               corev1.Data := SecretData obj |} in
          _ <~ call (CallCreate secret);;
          err <~ request (client.Create k8sClusterClient secret);;
          match err with
          | Some e => ret (Err e)
          | None => ret (Ok secret)
          end
      end
  end.

(** Modelled from the spec: the loop of [GenerateClusterSecretsWithFunc]
    over the wanted configurations, "strictly in the order returned by the
    Config Set Provider"; it "halts on first per-configuration error;
    objects already created before the failure remain created". *)
Fixpoint generateClusterSecretsFrom (wantedSecretsList : list ConfigInterface)
    (deployedClusterSecrets : gmap string corev1.Secret)
  : M K (result (gmap string corev1.Secret)) :=
  match wantedSecretsList with
  | [] => ret (Ok deployedClusterSecrets)
  | s :: rest =>
      r <~ ensureSecret s;;
      match r with
      | Err e => ret (Err e)
      | Ok secret =>
          generateClusterSecretsFrom rest
            (<[GetName s := secret]> deployedClusterSecrets)
      end
  end.

End GenerateClusterSecrets.

(** Modelled from the spec: [secrets.GenerateClusterSecretsWithFunc] is not
    among the sources; its signature is the one of the call in [Deploy]
    (the context only carries cancellation and is left out). It returns the
    objects of all wanted configurations, by name. *)
Definition GenerateClusterSecretsWithFunc {K : Type}
    (k8sClusterClient : client.Client K)
    (existingSecretsMap : gmap string corev1.Secret)
    (wantedSecretsList : list ConfigInterface)
    (namespace : string)
    (SecretsGeneratorFunc : ConfigInterface → M K (result DataInterface))
  : M K (result (gmap string corev1.Secret)) :=
  generateClusterSecretsFrom k8sClusterClient existingSecretsMap namespace
    SecretsGeneratorFunc wantedSecretsList ∅.

End secrets.

(** ** pkg/operation/shootsecrets *)
Module shootsecrets.

Section Manager.
(** [secrets.Certificate] and [secrets.StaticToken] are only stored and
    handed on by the manager. *)
Context {Certificate StaticTokenT : Type}.

Definition SecretConfigGeneratorFunc : Type :=
  gmap string Certificate → result (list secrets.ConfigInterface).

Record SecretsManager := {
  secretConfigGenerator : option SecretConfigGeneratorFunc;
  certificateAuthorities : gmap string Certificate;
  existingSecrets : gmap string corev1.Secret;
  GardenerResourceDataList : helper.GardenerResourceDataList;
  StaticToken : option StaticTokenT;
  DeployedSecrets : gmap string corev1.Secret
}.

Definition NewSecretsManager
    (gardenerResourceDataList : helper.GardenerResourceDataList)
    (secretConfigGenerator : option SecretConfigGeneratorFunc)
  : SecretsManager :=
  {| GardenerResourceDataList := gardenerResourceDataList;
     secretConfigGenerator := secretConfigGenerator;
     certificateAuthorities := ∅;
     existingSecrets := ∅;
     StaticToken := None;
     DeployedSecrets := ∅ |}.

Definition WithExistingSecrets (existingSecrets' : gmap string corev1.Secret)
    (s : SecretsManager) : SecretsManager :=
  {| secretConfigGenerator := secretConfigGenerator s;
     certificateAuthorities := certificateAuthorities s;
     existingSecrets := existingSecrets';
     GardenerResourceDataList := GardenerResourceDataList s;
     StaticToken := StaticToken s;
     DeployedSecrets := DeployedSecrets s |}.

Definition WithCertificateAuthorities (cas : gmap string Certificate)
    (s : SecretsManager) : SecretsManager :=
  {| secretConfigGenerator := secretConfigGenerator s;
     certificateAuthorities := cas;
     existingSecrets := existingSecrets s;
     GardenerResourceDataList := GardenerResourceDataList s;
     StaticToken := StaticToken s;
     DeployedSecrets := DeployedSecrets s |}.

(** The two assignments to fields of [*s] in the methods below. *)
Definition setGardenerResourceDataList (l : helper.GardenerResourceDataList)
    (s : SecretsManager) : SecretsManager :=
  {| secretConfigGenerator := secretConfigGenerator s;
     certificateAuthorities := certificateAuthorities s;
     existingSecrets := existingSecrets s;
     GardenerResourceDataList := l;
     StaticToken := StaticToken s;
     DeployedSecrets := DeployedSecrets s |}.

Definition setDeployedSecrets (d : gmap string corev1.Secret)
    (s : SecretsManager) : SecretsManager :=
  {| secretConfigGenerator := secretConfigGenerator s;
     certificateAuthorities := certificateAuthorities s;
     existingSecrets := existingSecrets s;
     GardenerResourceDataList := GardenerResourceDataList s;
     StaticToken := StaticToken s;
     DeployedSecrets := d |}.

Context {K : Type}.

Definition generateInfoDataAndUpdateResourceList
    (secretConfig : secrets.ConfigInterface) (s : SecretsManager)
  : M K (option error * SecretsManager) :=
  match helper.Get (GardenerResourceDataList s) (secrets.GetName secretConfig) with
  | Some _ => ret (None, s)
  | None =>
      r <~ ask (CallGenerateInfoData (secrets.GetName secretConfig))
             (secrets.GenerateInfoData secretConfig);;
      match r with
      | Err e => ret (Some e, s)
      | Ok data =>
          let (err, l) :=
            infodata.UpsertInfoData (GardenerResourceDataList s)
              (secrets.GetName secretConfig) data in
          ret (err, setGardenerResourceDataList l s)
      end
  end.

(** The [for _, config := range secretConfigs] loop of [Generate]. *)
Fixpoint generateAll (secretConfigs : list secrets.ConfigInterface)
    (s : SecretsManager) : M K (option error * SecretsManager) :=
  match secretConfigs with
  | [] => ret (None, s)
  | config :: rest =>
      r <~ generateInfoDataAndUpdateResourceList config s;;
      match r with
      | (Some e, s') => ret (Some e, s')
      | (None, s') => generateAll rest s'
      end
  end.

(** [s.secretConfigGenerator] is called without a nil check. *)
Definition Generate (s : SecretsManager) : M K (completion * SecretsManager) :=
  match secretConfigGenerator s with
  | None => ret (Panic nilFuncCall, s)
  | Some generator =>
      _ <~ call CallSecretConfigGenerator;;
      match generator (certificateAuthorities s) with
      | Err e => ret (Return (Some e), s)
      | Ok secretConfigs =>
          r <~ generateAll secretConfigs s;;
          ret (Return r.1, r.2)
      end
  end.

Variable Unmarshal : helper.GardenerResourceData → result infodata.InfoData.

Definition getInfoDataAndGenerateSecret (s : SecretsManager)
    (secretConfig : secrets.ConfigInterface)
  : M K (result secrets.DataInterface) :=
  match infodata.GetInfoData Unmarshal (GardenerResourceDataList s)
          (secrets.GetName secretConfig) with
  | Err e => ret (Err e)
  | Ok None =>
      ask (CallGenerate (secrets.GetName secretConfig))
        (secrets.Generate secretConfig)
  | Ok (Some secretInfoData) =>
      _ <~ call (CallGenerateFromInfoData (secrets.GetName secretConfig));;
      ret (secrets.GenerateFromInfoData secretConfig secretInfoData)
  end.

(** The [context.Context] of [deploySecret] and [Deploy] only carries
    cancellation to the client and is left out. *)
Definition deploySecret (s : SecretsManager) (k8sClient : client.Client K)
    (namespace : string) (secretInterface : secrets.DataInterface)
    (secretName : string) : M K (result corev1.Secret) :=
  match existingSecrets s !! secretName with
  | Some secret => ret (Ok secret)
  | None =>
      let secret :=
        {| corev1.ObjectMeta := {| metav1.Name := secretName;
                                   metav1.Namespace := namespace |};
           corev1.Type_ := corev1.SecretTypeOpaque;
           corev1.Data := secrets.SecretData secretInterface |} in
      _ <~ call (CallCreate secret);;
      err <~ request (client.Create k8sClient secret);;
      match err with
      | Some e => ret (Err e)
      | None => ret (Ok secret)
      end
  end.

(** The [for name, secret := range deployedSecrets] loop of [Deploy]. *)
Definition mergeDeployed (deployedSecrets : gmap string corev1.Secret)
    (into : gmap string corev1.Secret) : gmap string corev1.Secret :=
  map_fold (λ name secret acc, <[name := secret]> acc) into deployedSecrets.

(** [secrets.GenerateClusterSecretsWithFunc] is not among the sources:
    [Deploy] is given for any function of its signature. *)
Variable GenerateClusterSecretsWithFunc :
  client.Client K → gmap string corev1.Secret → list secrets.ConfigInterface →
  string → (secrets.ConfigInterface → M K (result secrets.DataInterface)) →
  M K (result (gmap string corev1.Secret)).

Definition Deploy (k8sClient : client.Client K) (namespace : string)
    (s : SecretsManager) : M K (completion * SecretsManager) :=
  match secretConfigGenerator s with
  | None => ret (Return None, s)
  | Some generator =>
      _ <~ call CallSecretConfigGenerator;;
      match generator (certificateAuthorities s) with
      | Err e => ret (Return (Some e), s)
      | Ok secretConfigs =>
          r <~ GenerateClusterSecretsWithFunc k8sClient (existingSecrets s)
                 secretConfigs namespace
                 (λ c, getInfoDataAndGenerateSecret s c);;
          match r with
          | Err e => ret (Return (Some e), s)
          | Ok deployedSecrets =>
              ret (Return None,
                   setDeployedSecrets
                     (mergeDeployed deployedSecrets (DeployedSecrets s)) s)
          end
      end
  end.

End Manager.

Arguments SecretsManager : clear implicits.
Arguments SecretConfigGeneratorFunc : clear implicits.

End shootsecrets.

(** Records that can be read from [g] read the same from [g']. *)
Definition retained (g g' : helper.GardenerResourceDataList) : Prop :=
  ∀ name rd, helper.Get g name = Some rd → helper.Get g' name = Some rd.

(** ** Repeated calls and what is observed of a run *)
Module observations.
Import shootsecrets.

Section Repeated.
Context {Certificate StaticTokenT K : Type}.

(** [n] calls of [Generate] in a row, each on the manager as the previous
    call left it. A caller sees an error and may call again; a panic ends
    the sequence. *)
Fixpoint GenerateTimes (n : nat) (s : SecretsManager Certificate StaticTokenT)
  : M K (SecretsManager Certificate StaticTokenT) :=
  match n with
  | 0 => ret s
  | S n' =>
      r <~ Generate s;;
      match r.1 with
      | Panic _ => ret r.2
      | Return _ => GenerateTimes n' r.2
      end
  end.

(** Every one of the configurations has a record in the manager's list. *)
Definition recorded (s : SecretsManager Certificate StaticTokenT)
    (configs : list secrets.ConfigInterface) : Prop :=
  Forall (λ c, is_Some (helper.Get (GardenerResourceDataList s) (secrets.GetName c)))
    configs.

(** What entitles a call to a collaborator, given the manager: a creation is
    for a name with no object among the existing secrets, a synthesis for a
    name with no record, a reconstruction for a name with a record. *)
Definition entitled (s : SecretsManager Certificate StaticTokenT) (c : Call) : Prop :=
  match c with
  | CallCreate secret =>
      existingSecrets s !! metav1.Name (corev1.ObjectMeta secret) = None
  | CallGenerate name => helper.Get (GardenerResourceDataList s) name = None
  | CallGenerateFromInfoData name =>
      is_Some (helper.Get (GardenerResourceDataList s) name)
  | CallSecretConfigGenerator | CallGenerateInfoData _ => True
  end.


(** The [range] loop of [Deploy] when the map is visited in the order
    [visit]: Go leaves the order of a [range] over a map unspecified. *)
Definition mergeInOrder (visit : list (string * corev1.Secret))
    (into : gmap string corev1.Secret) : gmap string corev1.Secret :=
  foldl (λ acc entry, <[entry.1 := entry.2]> acc) into visit.

(** The world once the configuration generator has been called. *)
Definition afterGenerator (w : World K) : World K :=
  {| cluster := cluster w; calls := calls w ++ [CallSecretConfigGenerator] |}.

End Repeated.
End observations.

(** ** A concrete cluster, decoder and set of configurations

    Scenario data in the style of the package's use: a certificate authority
    [ca], a [kubeconfig-token], and a configuration whose material cannot be
    synthesised. *)
Module scenario.

Definition bytes (s : string) : list byte := String.list_byte_of_string s.

(** A cluster is the list of the objects created in it; creation is refused
    for an object whose name and namespace are taken. *)
Definition fakeClient : client.Client (list corev1.Secret) :=
  {| client.Create secret k :=
       if decide (corev1.ObjectMeta secret ∈ corev1.ObjectMeta <$> k)
       then (Some "already exists", k)
       else (None, k ++ [secret]) |}.

Definition infoOf (kind payload : string) : infodata.InfoData :=
  {| infodata.TypeVersion := kind; infodata.Marshal := Ok (bytes payload) |}.

Definition dataOf (key payload : string) : secrets.DataInterface :=
  {| secrets.SecretData := {[ key := bytes payload ]} |}.

(** The decoder gives back material that encodes to the record's data. *)
Definition Unmarshal (rd : helper.GardenerResourceData) : result infodata.InfoData :=
  if decide (helper.Type_ rd = "broken") then Err "unknown record type"
  else Ok {| infodata.TypeVersion := helper.Type_ rd;
             infodata.Marshal := Ok (helper.Data rd) |}.

Definition ca : secrets.ConfigInterface :=
  {| secrets.GetName := "ca";
     secrets.Generate _ := Ok (dataOf "ca.crt" "fresh-ca");
     secrets.GenerateInfoData _ := Ok (infoOf "certificate" "fresh-ca");
     secrets.GenerateFromInfoData info :=
       match infodata.Marshal info with
       | Ok b => Ok {| secrets.SecretData := {[ "ca.crt" := b ]} |}
       | Err e => Err e
       end |}.

Definition token : secrets.ConfigInterface :=
  {| secrets.GetName := "kubeconfig-token";
     secrets.Generate _ := Ok (dataOf "token" "fresh-token");
     secrets.GenerateInfoData _ := Ok (infoOf "staticToken" "fresh-token");
     secrets.GenerateFromInfoData info :=
       match infodata.Marshal info with
       | Ok b => Ok {| secrets.SecretData := {[ "token" := b ]} |}
       | Err e => Err e
       end |}.

Definition broken : secrets.ConfigInterface :=
  {| secrets.GetName := "etcd-server";
     secrets.Generate _ := Err "no signing authority";
     secrets.GenerateInfoData _ := Err "no signing authority";
     secrets.GenerateFromInfoData _ := Err "no signing authority" |}.




Definition allConfigs : shootsecrets.SecretConfigGeneratorFunc unit :=
  λ _, Ok [ca; token].

Definition withBroken : shootsecrets.SecretConfigGeneratorFunc unit :=
  λ _, Ok [ca; broken; token].

Definition missingCA : shootsecrets.SecretConfigGeneratorFunc unit :=
  λ cas, match cas !! "ca" with
         | Some _ => Ok [ca; token]
         | None => Err "missing certificate authority ca"
         end.

Definition manager (generator : option (shootsecrets.SecretConfigGeneratorFunc unit))
    (records : helper.GardenerResourceDataList)
  : shootsecrets.SecretsManager unit unit :=
  shootsecrets.NewSecretsManager records generator.

Definition caRecord : helper.GardenerResourceData :=
  {| helper.Name := "ca"; helper.Type_ := "certificate";
     helper.Data := bytes "stored-ca" |}.

Definition tokenObject : corev1.Secret :=
  {| corev1.ObjectMeta := {| metav1.Name := "kubeconfig-token";
                             metav1.Namespace := "shoot--foo--bar" |};
     corev1.Type_ := corev1.SecretTypeOpaque;
     corev1.Data := {[ "token" := bytes "issued-token" ]} |}.

Definition emptyWorld : World (list corev1.Secret) :=
  {| cluster := []; calls := [] |}.

(** The manager and the world a first [Generate] leaves in scenario A. *)
Definition generated : shootsecrets.SecretsManager unit unit :=
  shootsecrets.NewSecretsManager
    [{| helper.Name := "ca"; helper.Type_ := "certificate";
        helper.Data := bytes "fresh-ca" |};
     {| helper.Name := "kubeconfig-token"; helper.Type_ := "staticToken";
        helper.Data := bytes "fresh-token" |}]
    (Some allConfigs).

Definition generatedWorld : World (list corev1.Secret) :=
  {| cluster := [];
     calls := [CallSecretConfigGenerator; CallGenerateInfoData "ca";
               CallGenerateInfoData "kubeconfig-token"] |}.

(** Scenario A: an empty record list and the configurations [ca] and
    [kubeconfig-token]. *)
Definition fresh : shootsecrets.SecretsManager unit unit :=
  manager (Some allConfigs) [].

Definition caFreshRecord : helper.GardenerResourceData :=
  {| helper.Name := "ca"; helper.Type_ := "certificate";
     helper.Data := bytes "fresh-ca" |}.

Definition tokenFreshRecord : helper.GardenerResourceData :=
  {| helper.Name := "kubeconfig-token"; helper.Type_ := "staticToken";
     helper.Data := bytes "fresh-token" |}.

(** Scenario B: a record for [ca] only, an existing object for
    [kubeconfig-token]. *)
Definition reconciled : shootsecrets.SecretsManager unit unit :=
  shootsecrets.WithExistingSecrets {[ "kubeconfig-token" := tokenObject ]}
    (manager (Some allConfigs) [caRecord]).

Definition caObject (payload : string) : corev1.Secret :=
  {| corev1.ObjectMeta := {| metav1.Name := "ca";
                             metav1.Namespace := "shoot--foo--bar" |};
     corev1.Type_ := corev1.SecretTypeOpaque;
     corev1.Data := {[ "ca.crt" := bytes payload ]} |}.

Definition reconciledObjects : gmap string corev1.Secret :=
  {[ "ca" := caObject "stored-ca"; "kubeconfig-token" := tokenObject ]}.

(** Scenario C: the generator misses the authority [ca]. *)
Definition withoutCA : shootsecrets.SecretsManager unit unit :=
  manager (Some missingCA) [].

(** A configuration in the middle cannot be synthesised. *)
Definition unsigned : shootsecrets.SecretsManager unit unit :=
  manager (Some withBroken) [].

Definition unsignedAfterCA : shootsecrets.SecretsManager unit unit :=
  manager (Some withBroken) [caFreshRecord].



(** A manager used for bookkeeping only: no generator. *)
Definition bookkeeping : shootsecrets.SecretsManager unit unit :=
  manager None [caRecord].

End scenario.

(** * Properties *)

Import shootsecrets observations.

(** ** The record list *)

Lemma Get_Some_name g name rd :
  helper.Get g name = Some rd → helper.Name rd = name.
Proof.
  induction g as [|entry rest IH]; simpl; [done|].
  case_decide; [by intros [= <-] | done].
Qed.

Lemma Get_app g g' name :
  helper.Get (g ++ g') name =
  match helper.Get g name with
  | Some rd => Some rd
  | None => helper.Get g' name
  end.
Proof.
  induction g as [|entry rest IH]; simpl; [by destruct (helper.Get g' name)|].
  by case_decide.
Qed.

Lemma Upsert_absent g rd :
  helper.Get g (helper.Name rd) = None → helper.Upsert g rd = g ++ [rd].
Proof.
  induction g as [|entry rest IH]; simpl; [done|].
  case_decide; [done|]. intros H'. by rewrite IH.
Qed.

Lemma Get_Upsert_eq g rd : is_Some (helper.Get (helper.Upsert g rd) (helper.Name rd)).
Proof.
  induction g as [|entry rest IH]; simpl.
  - rewrite decide_True; eauto.
  - case_decide as Hn; simpl.
    + rewrite decide_True; eauto.
    + rewrite decide_False; eauto.
Qed.

Lemma Get_Upsert_ne g rd name :
  name ≠ helper.Name rd → helper.Get (helper.Upsert g rd) name = helper.Get g name.
Proof.
  intros Hne. induction g as [|entry rest IH]; simpl.
  - by rewrite decide_False.
  - case_decide as Hn; simpl.
    + rewrite !decide_False; congruence.
    + by rewrite IH.
Qed.

Lemma Get_None_iff g name :
  helper.Get g name = None ↔ name ∉ helper.Name <$> g.
Proof.
  induction g as [|entry rest IH]; simpl.
  - split; [intros _; apply not_elem_of_nil|done].
  - rewrite not_elem_of_cons. case_decide as Hn; split.
    + done.
    + intros [Hne _]. by destruct Hne.
    + intros Hrest. split; [congruence|by apply IH].
    + intros [_ Hrest]. by apply IH.
Qed.

Lemma Get_snoc_absent g rd :
  helper.Get g (helper.Name rd) = None →
  helper.Get (g ++ [rd]) (helper.Name rd) = Some rd.
Proof. intros Hnone. rewrite Get_app, Hnone. simpl. by rewrite decide_True. Qed.

Lemma retained_refl g : retained g g.
Proof. by intros ??. Qed.

Lemma retained_trans g1 g2 g3 : retained g1 g2 → retained g2 g3 → retained g1 g3.
Proof. intros H12 H23 ???. eauto. Qed.

Lemma UpsertInfoData_cases g name data :
  (∃ e, infodata.Marshal data = Err e ∧
        infodata.UpsertInfoData g name data = (Some e, g)) ∨
  (∃ bytes, infodata.Marshal data = Ok bytes ∧
        infodata.UpsertInfoData g name data =
          (None, helper.Upsert g {| helper.Name := name;
                                    helper.Type_ := infodata.TypeVersion data;
                                    helper.Data := bytes |})).
Proof. unfold infodata.UpsertInfoData. destruct (infodata.Marshal data); eauto. Qed.

(** Unfold the monad's operations at the head of the goal. *)
Ltac run := unfold bind, ask, call, request, ret; simpl.

Section Properties.
Context {Certificate StaticTokenT K : Type}.
Implicit Types (s : SecretsManager Certificate StaticTokenT) (w : World K).
Implicit Types (c config : secrets.ConfigInterface).

Lemma setGardenerResourceDataList_same s :
  setGardenerResourceDataList (GardenerResourceDataList s) s = s.
Proof. by destruct s. Qed.

(** ** One configuration of [Generate] *)

(** A configuration whose name has a record is skipped. *)
Lemma generateInfoData_present c s w :
  is_Some (helper.Get (GardenerResourceDataList s) (secrets.GetName c)) →
  generateInfoDataAndUpdateResourceList c s w = (None, s, w).
Proof.
  intros [rd Hrd]. unfold generateInfoDataAndUpdateResourceList. by rewrite Hrd.
Qed.

(** What [generateInfoDataAndUpdateResourceList] can do: it changes nothing
    of the manager but the record list; a failure leaves the list as it was
    and the name without a record; a success leaves the name with a record;
    no record is lost; the cluster is not touched. *)
Lemma generateInfoData_effect c s w :
  ∀ err s' w', generateInfoDataAndUpdateResourceList c s w = (err, s', w') →
    s' = setGardenerResourceDataList (GardenerResourceDataList s') s ∧
    cluster w' = cluster w ∧
    retained (GardenerResourceDataList s) (GardenerResourceDataList s') ∧
    (err = None →
       is_Some (helper.Get (GardenerResourceDataList s') (secrets.GetName c))) ∧
    (is_Some err →
       s' = s ∧
       helper.Get (GardenerResourceDataList s) (secrets.GetName c) = None).
Proof.
  intros err s' w'. unfold generateInfoDataAndUpdateResourceList.
  destruct (helper.Get _ _) as [rd|] eqn:Hget.
  - intros [= <- <- <-]. rewrite setGardenerResourceDataList_same.
    split_and!; eauto using retained_refl. by intros [??].
  - run.
    destruct (secrets.GenerateInfoData c (calls w)) as [data|e].
    + destruct (UpsertInfoData_cases (GardenerResourceDataList s)
                  (secrets.GetName c) data) as [(e & _ & ->)|(bytes & _ & ->)].
      * intros [= <- <- <-]. rewrite !setGardenerResourceDataList_same.
        split_and!; eauto using retained_refl. done.
      * intros [= <- <- <-]. simpl. split_and!; [done|done| | |by intros [??]].
        -- intros name rd Hrd. rewrite Get_Upsert_ne; [done|].
           simpl. intros ->. congruence.
        -- intros _.
           apply (Get_Upsert_eq _ {| helper.Name := secrets.GetName c |}).
    + intros [= <- <- <-]. rewrite setGardenerResourceDataList_same.
      split_and!; eauto using retained_refl. done.
Qed.
(** ** The loop of [Generate] *)

Lemma generateAll_cons c configs s w :
  generateAll (c :: configs) s w =
  match generateInfoDataAndUpdateResourceList c s w with
  | (Some e, s', w') => (Some e, s', w')
  | (None, s', w') => generateAll configs s' w'
  end.
Proof.
  simpl. unfold bind.
  by destruct (generateInfoDataAndUpdateResourceList c s w) as [[[e|] s'] w'].
Qed.

Lemma generateAll_app pre post s w :
  generateAll (pre ++ post) s w =
  match generateAll pre s w with
  | (Some e, s', w') => (Some e, s', w')
  | (None, s', w') => generateAll post s' w'
  end.
Proof.
  revert s w. induction pre as [|c pre IH]; intros s w; [done|].
  rewrite <-app_comm_cons, !generateAll_cons.
  destruct (generateInfoDataAndUpdateResourceList c s w) as [[[e|] s'] w']; [done|].
  apply IH.
Qed.

Lemma generateAll_effect configs s w err s' w' :
  generateAll configs s w = (err, s', w') →
  s' = setGardenerResourceDataList (GardenerResourceDataList s') s ∧
  cluster w' = cluster w ∧
  retained (GardenerResourceDataList s) (GardenerResourceDataList s') ∧
  (err = None → recorded s' configs).
Proof.
  revert s w. induction configs as [|c configs IH]; intros s w.
  - intros [= <- <- <-]. rewrite setGardenerResourceDataList_same.
    split_and!; eauto using retained_refl. intros _. constructor.
  - rewrite generateAll_cons.
    destruct (generateInfoDataAndUpdateResourceList c s w) as [[[e|] s1] w1] eqn:Hc.
    + intros [= <- <- <-].
      destruct (generateInfoData_effect _ _ _ _ _ _ Hc) as (? & ? & ? & _ & _).
      split_and!; done.
    + intros Hrest.
      destruct (generateInfoData_effect _ _ _ _ _ _ Hc) as (Hs1 & Hw1 & Hr1 & Hin & _).
      destruct (IH _ _ Hrest) as (Hs' & Hw' & Hr' & Hall).
      split_and!.
      * rewrite Hs', Hs1. done.
      * congruence.
      * eauto using retained_trans.
      * intros Herr. constructor; [|by apply Hall].
        destruct (Hin eq_refl) as [rd Hrd]. exists rd. by apply Hr'.
Qed.

(** Configurations that all have a record are all skipped. *)
Lemma generateAll_recorded configs s w :
  recorded s configs → generateAll configs s w = (None, s, w).
Proof.
  induction 1 as [|c configs Hc _ IH]; [done|].
  rewrite generateAll_cons, generateInfoData_present; done.
Qed.

(** The three ways [generateInfoDataAndUpdateResourceList] can go: the name
    has a record and nothing happens; the synthesis or the encoding fails and
    only the call is recorded; or the encoded record is appended. *)
Lemma generateInfoData_cases c s w err s' w' :
  generateInfoDataAndUpdateResourceList c s w = (err, s', w') →
  let name := secrets.GetName c in
  let called := {| cluster := cluster w;
                   calls := calls w ++ [CallGenerateInfoData name] |} in
  (is_Some (helper.Get (GardenerResourceDataList s) name) ∧
     err = None ∧ s' = s ∧ w' = w) ∨
  (helper.Get (GardenerResourceDataList s) name = None ∧
     s' = s ∧ w' = called ∧
     ∃ e, err = Some e ∧
       (secrets.GenerateInfoData c (calls w) = Err e ∨
        ∃ data, secrets.GenerateInfoData c (calls w) = Ok data ∧
                infodata.Marshal data = Err e)) ∨
  (helper.Get (GardenerResourceDataList s) name = None ∧ err = None ∧
     w' = called ∧
     ∃ data bytes,
       secrets.GenerateInfoData c (calls w) = Ok data ∧
       infodata.Marshal data = Ok bytes ∧
       s' = setGardenerResourceDataList
              (GardenerResourceDataList s ++
                 [{| helper.Name := name;
                     helper.Type_ := infodata.TypeVersion data;
                     helper.Data := bytes |}]) s).
Proof.
  unfold generateInfoDataAndUpdateResourceList. simpl.
  destruct (helper.Get _ _) as [rd|] eqn:Hget.
  - intros [= <- <- <-]. left. eauto.
  - run. destruct (secrets.GenerateInfoData c (calls w)) as [data|e] eqn:Hdata.
    + unfold infodata.UpsertInfoData.
      destruct (infodata.Marshal data) as [bytes|e] eqn:Hbytes.
      * intros [= <- <- <-]. right; right. split_and!; [done..|].
        exists data, bytes. split_and!; [done..|].
        by rewrite Upsert_absent.
      * intros [= <- <- <-]. right; left.
        rewrite setGardenerResourceDataList_same. split_and!; [done..|].
        exists e. eauto.
    + intros [= <- <- <-]. right; left. split_and!; [done..|].
      exists e. eauto.
Qed.

(** What a run of the loop of [Generate] adds: records appended in order, one
    synthesis call per name in [names], which are distinct names that had no
    record (and that some configuration carries); every synthesised name got
    its record, except the one whose failure ended the run. *)
Lemma generateAll_trace configs s w err s' w' :
  generateAll configs s w = (err, s', w') →
  ∃ added names failed,
    GardenerResourceDataList s' = GardenerResourceDataList s ++ added ∧
    calls w' = calls w ++ (CallGenerateInfoData <$> names) ∧
    names = (helper.Name <$> added) ++ failed ∧
    (err = None → failed = []) ∧
    NoDup names ∧
    ∀ name, name ∈ names →
      helper.Get (GardenerResourceDataList s) name = None ∧
      name ∈ secrets.GetName <$> configs.
Proof.
  revert s w. induction configs as [|c configs IH]; intros s w.
  - intros [= <- <- <-]. exists [], [], []. simpl.
    rewrite !app_nil_r. split_and!; [done..|constructor|].
    intros name. by rewrite elem_of_nil.
  - rewrite generateAll_cons.
    destruct (generateInfoDataAndUpdateResourceList c s w) as [[err1 s1] w1] eqn:Hc.
    apply generateInfoData_cases in Hc as
      [(Hsome & -> & -> & ->)|[(Hnone & -> & -> & e & -> & _)|
       (Hnone & -> & -> & data & bytes & Hdata & Hbytes & ->)]].
    + intros Hrest.
      destruct (IH _ _ Hrest) as (added & names & failed & ? & ? & ? & ? & ? & Hnames).
      exists added, names, failed. split_and!; [done..|].
      intros name Hin. destruct (Hnames _ Hin) as [? ?].
      split; [done|]. rewrite fmap_cons. by apply list_elem_of_further.
    + intros [= <- <- <-].
      exists [], [secrets.GetName c], [secrets.GetName c]. simpl.
      rewrite app_nil_r. split_and!; [done..|by apply NoDup_singleton|].
      intros name ->%list_elem_of_singleton. split; [done|]. apply list_elem_of_here.
    + intros Hrest.
      destruct (IH _ _ Hrest)
        as (added & names & failed & Hadded & Hcalls & -> & Hfailed & Hdup & Hnames).
      simpl in Hadded, Hcalls, Hnames.
      set (rd := {| helper.Name := secrets.GetName c;
                    helper.Type_ := infodata.TypeVersion data;
                    helper.Data := bytes |}) in *.
      exists (rd :: added), (secrets.GetName c :: (helper.Name <$> added) ++ failed),
        failed.
      split_and!.
      * by rewrite Hadded, <-(assoc_L (++)).
      * by rewrite Hcalls, <-(assoc_L (++)).
      * done.
      * done.
      * apply NoDup_cons. split; [|done]. intros Hin.
        destruct (Hnames _ Hin) as [Habsent _].
        by rewrite (Get_snoc_absent _ rd) in Habsent.
      * intros name [->|Hin]%elem_of_cons.
        -- split; [done|]. apply list_elem_of_here.
        -- destruct (Hnames _ Hin) as [Habsent ?].
           split; [|rewrite fmap_cons; by apply list_elem_of_further].
           rewrite Get_app in Habsent.
           by destruct (helper.Get (GardenerResourceDataList s) name).
Qed.

(** ** [Generate] *)


Lemma Generate_recorded s w generator configs :
  secretConfigGenerator s = Some generator →
  generator (certificateAuthorities s) = Ok configs →
  recorded s configs →
  Generate s w = (Return None, s, afterGenerator w).
Proof.
  intros Hgen Hconfigs Hrec. unfold Generate. rewrite Hgen. run.
  fold (afterGenerator w). by rewrite Hconfigs, generateAll_recorded.
Qed.



(** C6. [Generate] halts at the first configuration that fails: when the
    configurations before [k] went through and [k] fails with [e] (its
    synthesis or its encoding failed), [Generate] returns [e] in the state the
    failing step left, whatever follows [k]; the last call made is the
    synthesis for [k]; the failing step leaves the record list as it found it,
    every configuration before [k] has its record, and no record the list
    held at the start is lost. *)
Theorem Generate_halts_at_first_error s w generator pre k post e s1 w1 s2 w2 :
  secretConfigGenerator s = Some generator →
  generator (certificateAuthorities s) = Ok (pre ++ k :: post) →
  generateAll pre s (afterGenerator w) = (None, s1, w1) →
  generateInfoDataAndUpdateResourceList k s1 w1 = (Some e, s2, w2) →
  Generate s w = (Return (Some e), s2, w2) ∧
  (secrets.GenerateInfoData k (calls w1) = Err e ∨
   ∃ data, secrets.GenerateInfoData k (calls w1) = Ok data ∧
           infodata.Marshal data = Err e) ∧
  calls w2 = calls w1 ++ [CallGenerateInfoData (secrets.GetName k)] ∧
  GardenerResourceDataList s2 = GardenerResourceDataList s1 ∧
  recorded s2 pre ∧
  retained (GardenerResourceDataList s) (GardenerResourceDataList s2).
Proof.
  intros Hgen Hconfigs Hpre Hk.
  destruct (generateAll_effect _ _ _ _ _ _ Hpre) as (_ & _ & Hkept & Hrec).
  destruct (generateInfoData_effect _ _ _ _ _ _ Hk) as (_ & _ & _ & _ & Hfail).
  destruct (Hfail ltac:(eauto)) as [-> Hnone].
  split_and!; [| | |done|by apply Hrec|done].
  - unfold Generate. rewrite Hgen. run.
    rewrite Hconfigs. fold (afterGenerator w).
    by rewrite generateAll_app, Hpre, generateAll_cons, Hk.
  - revert Hk. unfold generateInfoDataAndUpdateResourceList.
    rewrite Hnone. run.
    destruct (secrets.GenerateInfoData k (calls w1)) as [data|e'].
    + destruct (UpsertInfoData_cases (GardenerResourceDataList s1)
                  (secrets.GetName k) data) as [(e1 & Hm & ->)|(bytes & _ & ->)];
        [|done].
      intros [= <-]. right. eauto.
    + intros [= <-]. by left.
  - revert Hk. unfold generateInfoDataAndUpdateResourceList.
    rewrite Hnone. run.
    destruct (secrets.GenerateInfoData k (calls w1)) as [data|e'].
    + destruct (infodata.UpsertInfoData _ _ _). by intros [= _ _ <-].
    + by intros [= _ <-].
Qed.

(** ** [Deploy] *)

Section Deploy.
Variable Unmarshal : helper.GardenerResourceData → result infodata.InfoData.
Variable GenerateClusterSecretsWithFunc :
  client.Client K → gmap string corev1.Secret → list secrets.ConfigInterface →
  string → (secrets.ConfigInterface → M K (result secrets.DataInterface)) →
  M K (result (gmap string corev1.Secret)).
Variable k8sClient : client.Client K.
Variable namespace : string.

Local Abbreviation Deploy :=
  (Deploy Unmarshal GenerateClusterSecretsWithFunc k8sClient namespace).

(** C5. When the configuration generator returns an error, [Generate] and
    [Deploy] both return that error; the manager (its record list and its
    deployed secrets with it) and the cluster are as before, and the only
    call made is the one to the generator. *)
Theorem generator_error_changes_nothing s w generator e :
  secretConfigGenerator s = Some generator →
  generator (certificateAuthorities s) = Err e →
  Generate s w = (Return (Some e), s, afterGenerator w) ∧
  Deploy s w = (Return (Some e), s, afterGenerator w) ∧
  cluster (afterGenerator w) = cluster w.
Proof.
  intros Hgen Herr. unfold Generate, shootsecrets.Deploy.
  rewrite Hgen. run. by rewrite Herr.
Qed.

(** C7. With no configuration generator, [Deploy] returns [nil]; no
    collaborator is called and neither the manager nor the cluster
    changes. *)
Theorem Deploy_without_generator s w :
  secretConfigGenerator s = None →
  Deploy s w = (Return None, s, w).
Proof. intros Hnil. unfold shootsecrets.Deploy. by rewrite Hnil. Qed.

(** C9. The nil guard is [Deploy]'s alone: with no configuration generator
    [Generate] calls the nil func and panics, which is none of its error
    returns, where [Deploy] returns [nil]; with a generator [Generate]
    always returns. *)
Theorem Generate_without_generator_panics s w :
  secretConfigGenerator s = None →
  Generate s w = (Panic nilFuncCall, s, w) ∧
  (∀ err, (Generate s w).1.1 ≠ Return err) ∧
  (Deploy s w).1.1 = Return None ∧
  (∀ s', is_Some (secretConfigGenerator s') → ∃ err, (Generate s' w).1.1 = Return err).
Proof.
  intros Hnil. unfold Generate at 1 2, shootsecrets.Deploy. rewrite Hnil.
  split_and!; [done|done|done|].
  intros s' [generator Hgen]. unfold Generate. rewrite Hgen.
  run.
  destruct (generator (certificateAuthorities s')) as [configs|e]; [|by eexists].
  destruct (generateAll configs s' _) as [[err s1] w1]. by eexists.
Qed.

(** C4. [Deploy] never writes the record list: whatever the outcome, the
    manager it leaves differs from the one it found in its deployed secrets
    at most. *)
Theorem Deploy_keeps_records s w :
  GardenerResourceDataList (Deploy s w).1.2 = GardenerResourceDataList s ∧
  (Deploy s w).1.2 = setDeployedSecrets (DeployedSecrets (Deploy s w).1.2) s.
Proof.
  assert ((Deploy s w).1.2 = setDeployedSecrets (DeployedSecrets (Deploy s w).1.2) s)
    as Hframe; [|split; [by rewrite Hframe|done]].
  unfold shootsecrets.Deploy.
  destruct (secretConfigGenerator s) as [generator|] eqn:Hgen; [|by destruct s].
  run.
  destruct (generator (certificateAuthorities s)) as [configs|e]; [|by destruct s].
  destruct (GenerateClusterSecretsWithFunc _ _ _ _ _ _) as [[deployed|e] w1];
    simpl; [done|by destruct s].
Qed.

(** C10. A [Deploy] that returns an error leaves the deployed secrets (and
    the whole manager) as they were, whatever the cluster secret generation
    did to the cluster before it failed. *)
Theorem Deploy_error_keeps_DeployedSecrets s w e :
  (Deploy s w).1.1 = Return (Some e) →
  DeployedSecrets (Deploy s w).1.2 = DeployedSecrets s ∧
  (Deploy s w).1.2 = s ∧
  ∃ generator, secretConfigGenerator s = Some generator ∧
    (generator (certificateAuthorities s) = Err e ∨
     ∃ configs, generator (certificateAuthorities s) = Ok configs ∧
       GenerateClusterSecretsWithFunc k8sClient (existingSecrets s) configs
         namespace (getInfoDataAndGenerateSecret Unmarshal s) (afterGenerator w) =
       (Err e, (Deploy s w).2)).
Proof.
  unfold shootsecrets.Deploy.
  destruct (secretConfigGenerator s) as [generator|] eqn:Hgen; [|done].
  run. fold (afterGenerator w).
  destruct (generator (certificateAuthorities s)) as [configs|e'] eqn:Hconfigs;
    simpl.
  - destruct (GenerateClusterSecretsWithFunc _ _ _ _ _ _) as [[deployed|e'] w1]
      eqn:Hdeployed; simpl; [done|].
    intros [= ->]. split_and!; [done|done|]. exists generator. eauto.
  - intros [= ->]. split_and!; [done|done|]. exists generator. eauto.
Qed.

(** The merge loop of [Deploy] is a union in which the new objects win. *)
Lemma mergeDeployed_union (deployedSecrets into : gmap string corev1.Secret) :
  mergeDeployed deployedSecrets into = deployedSecrets ∪ into.
Proof.
  unfold mergeDeployed.
  apply (map_fold_weak_ind (λ r m, r = m ∪ into)).
  - by rewrite (left_id_L ∅ (∪)).
  - intros i x m r _ ->. apply insert_union_l.
Qed.

Lemma Deploy_success s w s' w' :
  Deploy s w = (Return None, s', w') →
  s' = s ∧ w' = w ∧ secretConfigGenerator s = None ∨
  ∃ generator configs deployedSecrets,
    secretConfigGenerator s = Some generator ∧
    generator (certificateAuthorities s) = Ok configs ∧
    GenerateClusterSecretsWithFunc k8sClient (existingSecrets s) configs
      namespace (getInfoDataAndGenerateSecret Unmarshal s) (afterGenerator w) =
    (Ok deployedSecrets, w') ∧
    s' = setDeployedSecrets (deployedSecrets ∪ DeployedSecrets s) s.
Proof.
  unfold shootsecrets.Deploy.
  destruct (secretConfigGenerator s) as [generator|] eqn:Hgen;
    [|intros [= <- <-]; by left].
  run. fold (afterGenerator w).
  destruct (generator (certificateAuthorities s)) as [configs|e'] eqn:Hconfigs;
    [|done].
  destruct (GenerateClusterSecretsWithFunc _ _ _ _ _ _) as [[deployed|e'] w1]
    eqn:Hdeployed; [|done].
  intros [= <- <-]. right. exists generator, configs, deployed.
  by rewrite mergeDeployed_union.
Qed.

End Deploy.

(** ** [Deploy] over the cluster secret generation as the specification has it *)

Section ClusterSecrets.
Variable Unmarshal : helper.GardenerResourceData → result infodata.InfoData.
Variable k8sClient : client.Client K.
Variable namespace : string.

(** The step of the cluster secret generation for one configuration is the
    manager's [deploySecret] on the resolved material. *)
Lemma ensureSecret_deploySecret s c w :
  secrets.ensureSecret k8sClient (existingSecrets s) namespace
    (getInfoDataAndGenerateSecret Unmarshal s) c w =
  (r <~ getInfoDataAndGenerateSecret Unmarshal s c;;
   match r with
   | Err e => ret (Err e)
   | Ok obj => deploySecret s k8sClient namespace obj (secrets.GetName c)
   end) w.
Proof. reflexivity. Qed.

Lemma getInfoDataAndGenerateSecret_calls s c w :
  ∃ new,
    calls (getInfoDataAndGenerateSecret Unmarshal s c w).2 = calls w ++ new ∧
    Forall (entitled s) new.
Proof.
  unfold getInfoDataAndGenerateSecret, infodata.GetInfoData.
  destruct (helper.Get _ _) as [rd|] eqn:Hrd; simpl.
  - destruct (Unmarshal rd) as [info|e]; simpl.
    + eexists. split; [done|]. repeat constructor. simpl. by rewrite Hrd.
    + exists []. split; [by rewrite app_nil_r|constructor].
  - eexists. split; [done|]. by repeat constructor.
Qed.




Lemma ensureSecret_effect s c w r w' :
  secrets.ensureSecret k8sClient (existingSecrets s) namespace
    (getInfoDataAndGenerateSecret Unmarshal s) c w = (r, w') →
  (∃ new, calls w' = calls w ++ new ∧ Forall (entitled s) new) ∧
  (∀ secret P, r = Ok secret → existingSecrets s !! secrets.GetName c = Some P →
               secret = P).
Proof.
  unfold secrets.ensureSecret, bind.
  destruct (getInfoDataAndGenerateSecret_calls s c w) as (new & Hnew & Hent).
  destruct (getInfoDataAndGenerateSecret Unmarshal s c w) as [[obj|e] w1];
    simpl in Hnew.
  - destruct (existingSecrets s !! secrets.GetName c) as [P|] eqn:HP.
    + intros [= <- <-]. split; [eauto|]. by intros ?? [= <-] [= <-].
    + run.
      destruct (client.Create _ _ _) as [[e|] k]; intros [= <- <-]; simpl;
        (split; [|done]); eexists;
        (split; [rewrite Hnew, <-(assoc_L (++)); reflexivity|]);
        (apply Forall_app; split; [done|]); by repeat constructor.
  - intros [= <- <-]. split; [eauto|done].
Qed.

Lemma generateClusterSecretsFrom_effect s configs :
  ∀ acc w r w',
  secrets.generateClusterSecretsFrom k8sClient (existingSecrets s) namespace
    (getInfoDataAndGenerateSecret Unmarshal s) configs acc w = (r, w') →
  (∃ new, calls w' = calls w ++ new ∧ Forall (entitled s) new) ∧
  (∀ deployed, r = Ok deployed →
     dom deployed = list_to_set (secrets.GetName <$> configs) ∪ dom acc ∧
     (∀ name, name ∉ secrets.GetName <$> configs → deployed !! name = acc !! name) ∧
     (∀ X P, existingSecrets s !! X = Some P → X ∈ secrets.GetName <$> configs →
             deployed !! X = Some P)).
Proof.
  induction configs as [|c configs IH]; intros acc w r w'; simpl.
  - intros [= <- <-]. split.
    + exists []. split; [by rewrite app_nil_r|constructor].
    + intros deployed [= <-]. split_and!; [by rewrite (left_id_L ∅ (∪))|done|].
      intros X P _. by rewrite elem_of_nil.
  - unfold bind at 1.
    destruct (secrets.ensureSecret _ _ _ _ c w) as [[secret|e] w1] eqn:Hc.
    + destruct (ensureSecret_effect _ _ _ _ _ Hc) as ((new1 & Hnew1 & Hent1) & Hreuse).
      intros Hrest. destruct (IH _ _ _ _ Hrest) as ((new2 & Hnew2 & Hent2) & Hres).
      split.
      * exists (new1 ++ new2). split; [by rewrite Hnew2, Hnew1, (assoc_L (++))|].
        by apply Forall_app.
      * intros deployed Hok. destruct (Hres _ Hok) as (Hdom & Hother & Hexisting).
        split_and!.
        -- rewrite Hdom, dom_insert_L, !(assoc_L (∪)). f_equal.
           apply (comm_L (∪)).
        -- intros name. rewrite not_elem_of_cons. intros [Hne Hnotin].
           rewrite Hother by done. by rewrite lookup_insert_ne.
        -- intros X P HP. rewrite elem_of_cons.
           destruct (decide (X ∈ secrets.GetName <$> configs)) as [Hin|Hnotin];
             [by eauto|].
           intros [->|?]; [|done].
           rewrite Hother by done. rewrite lookup_insert_eq.
           f_equal. by eapply Hreuse.
    + intros [= <- <-]. split; [|done].
      by destruct (ensureSecret_effect _ _ _ _ _ Hc) as [? _].
Qed.

(** [Deploy] with the cluster secret generation of the specification. *)
Local Abbreviation DeploySpecified :=
  (Deploy Unmarshal secrets.GenerateClusterSecretsWithFunc k8sClient namespace).

(** Every call [Deploy] makes is one the manager's state entitles it to. *)
Lemma Deploy_calls s w :
  ∃ new, calls (DeploySpecified s w).2 = calls w ++ new ∧ Forall (entitled s) new.
Proof.
  unfold shootsecrets.Deploy.
  destruct (secretConfigGenerator s) as [generator|].
  - unfold bind at 1, call, ret; simpl.
    assert (Forall (entitled s) [CallSecretConfigGenerator])
      as Hfirst by (by repeat constructor).
    destruct (generator (certificateAuthorities s)) as [configs|e]; [|by eauto].
    unfold bind, secrets.GenerateClusterSecretsWithFunc.
    destruct (secrets.generateClusterSecretsFrom _ _ _ _ _ _ _) as [r w1] eqn:Hrun.
    destruct (generateClusterSecretsFrom_effect _ _ _ _ _ _ Hrun)
      as ((new & Hnew & Hent) & _). simpl in Hnew.
    exists ([CallSecretConfigGenerator] ++ new).
    split; [|by apply Forall_app].
    rewrite (assoc_L (++)), <-Hnew. by destruct r.
  - exists []. split; [by rewrite app_nil_r|constructor].
Qed.



(** C2. An existing object takes precedence. With an object [P] under the
    name [X] among the existing secrets, whatever the record list holds:
    [deploySecret] returns [P] and leaves the world as it is; [Deploy]
    requests no creation of an object named [X]; and when [Deploy] succeeds
    and [X] is the name of one of the configurations, the deployed secrets
    hold [P] under [X]. *)
Theorem existing_secret_is_reused s X P w :
  existingSecrets s !! X = Some P →
  (∀ secretInterface,
     deploySecret s k8sClient namespace secretInterface X w = (Ok P, w)) ∧
  (∃ new,
     calls (Deploy Unmarshal secrets.GenerateClusterSecretsWithFunc k8sClient
              namespace s w).2 = calls w ++ new ∧
     ∀ secret, CallCreate secret ∈ new → metav1.Name (corev1.ObjectMeta secret) ≠ X) ∧
  (∀ generator configs,
     secretConfigGenerator s = Some generator →
     generator (certificateAuthorities s) = Ok configs →
     X ∈ secrets.GetName <$> configs →
     (Deploy Unmarshal secrets.GenerateClusterSecretsWithFunc k8sClient
        namespace s w).1.1 = Return None →
     DeployedSecrets
       (Deploy Unmarshal secrets.GenerateClusterSecretsWithFunc k8sClient
          namespace s w).1.2 !! X = Some P).
Proof.
  intros HP. split_and!.
  - intros d. unfold deploySecret. by rewrite HP.
  - destruct (Deploy_calls s w) as (new & Hnew & Hent).
    exists new. split; [done|]. intros secret Hin Hname.
    rewrite Forall_forall in Hent. apply Hent in Hin. simpl in Hin. congruence.
  - intros generator configs Hgen Hconfigs HX.
    destruct (DeploySpecified s w) as [[r s'] w'] eqn:HD. simpl. intros ->.
    apply Deploy_success in HD as [(_ & _ & ?)|HD]; [congruence|].
    destruct HD as (generator' & configs' & deployed & Hgen' & Hconfigs' & Hrun & ->).
    assert (configs' = configs) as -> by congruence.
    apply generateClusterSecretsFrom_effect in Hrun as (_ & Hres).
    destruct (Hres _ eq_refl) as (_ & _ & Hexisting). simpl.
    apply lookup_union_Some_l. by eapply Hexisting.
Qed.


End ClusterSecrets.

End Properties.

(** * The properties on the scenarios *)

Section Scenarios.
Import scenario.

Local Abbreviation DeployIn :=
  (Deploy scenario.Unmarshal secrets.GenerateClusterSecretsWithFunc fakeClient
     "shoot--foo--bar").

(** Scenario A: [Generate] inserts the two records, and a second call leaves
    them as they are. *)
Example scenario_A :
  GardenerResourceDataList (GenerateTimes 1 fresh emptyWorld).1 =
    [caFreshRecord; tokenFreshRecord] ∧
  GardenerResourceDataList (GenerateTimes 2 fresh emptyWorld).1 =
    [caFreshRecord; tokenFreshRecord].
Proof. split; reflexivity. Qed.

(** Scenario B: [ca] is reconstructed from its record and created, the
    object of [kubeconfig-token] is reused, and the deployed secrets hold
    these two names. *)
Example scenario_B :
  (DeployIn reconciled emptyWorld).1.1 = Return None ∧
  DeployedSecrets (DeployIn reconciled emptyWorld).1.2 = reconciledObjects ∧
  (DeployIn reconciled emptyWorld).2 =
    {| cluster := [caObject "stored-ca"];
       calls := [CallSecretConfigGenerator; CallGenerateFromInfoData "ca";
                 CallCreate (caObject "stored-ca");
                 CallGenerate "kubeconfig-token"] |}.
Proof. split_and!; vm_compute; reflexivity. Qed.



Lemma existing_secret_is_reused_witness :
  existingSecrets reconciled !! "kubeconfig-token" = Some tokenObject ∧
  helper.Get (GardenerResourceDataList reconciled) "kubeconfig-token" = None ∧
  DeployedSecrets (DeployIn reconciled emptyWorld).1.2 !! "kubeconfig-token" =
    Some tokenObject.
Proof.
  split_and!; [reflexivity|reflexivity|].
  apply (existing_secret_is_reused scenario.Unmarshal fakeClient "shoot--foo--bar"
           reconciled "kubeconfig-token" tokenObject emptyWorld eq_refl)
    with (generator := allConfigs) (configs := [ca; token]).
  - reflexivity.
  - reflexivity.
  - vm_compute. apply list_elem_of_In. simpl. tauto.
  - vm_compute. reflexivity.
Defined.


Lemma generator_error_changes_nothing_witness :
  secretConfigGenerator withoutCA = Some missingCA ∧
  missingCA (certificateAuthorities withoutCA) =
    Err "missing certificate authority ca" ∧
  Generate withoutCA emptyWorld =
    (Return (Some "missing certificate authority ca"), withoutCA,
     afterGenerator emptyWorld) ∧
  DeployIn withoutCA emptyWorld =
    (Return (Some "missing certificate authority ca"), withoutCA,
     afterGenerator emptyWorld) ∧
  cluster (afterGenerator emptyWorld) = cluster emptyWorld.
Proof.
  split; [reflexivity|]. split; [reflexivity|].
  apply (generator_error_changes_nothing scenario.Unmarshal
           secrets.GenerateClusterSecretsWithFunc fakeClient "shoot--foo--bar"
           withoutCA emptyWorld missingCA); reflexivity.
Defined.

Lemma Generate_halts_at_first_error_witness :
  generateAll [ca] unsigned (afterGenerator emptyWorld) =
    (None, unsignedAfterCA,
     {| cluster := [];
        calls := [CallSecretConfigGenerator; CallGenerateInfoData "ca"] |}) ∧
  Generate unsigned emptyWorld =
    (Return (Some "no signing authority"), unsignedAfterCA,
     {| cluster := [];
        calls := [CallSecretConfigGenerator; CallGenerateInfoData "ca";
                  CallGenerateInfoData "etcd-server"] |}) ∧
  recorded unsignedAfterCA [ca].
Proof.
  split; [reflexivity|].
  destruct (Generate_halts_at_first_error unsigned emptyWorld withBroken
              [ca] broken [token] "no signing authority"
              unsignedAfterCA
              {| cluster := [];
                 calls := [CallSecretConfigGenerator; CallGenerateInfoData "ca"] |}
              unsignedAfterCA
              {| cluster := [];
                 calls := [CallSecretConfigGenerator; CallGenerateInfoData "ca";
                           CallGenerateInfoData "etcd-server"] |}
              eq_refl eq_refl eq_refl eq_refl)
    as (Hgen & _ & _ & _ & Hrecorded & _).
  split; [exact Hgen|exact Hrecorded].
Defined.

Lemma Deploy_without_generator_witness :
  secretConfigGenerator bookkeeping = None ∧
  DeployIn bookkeeping emptyWorld = (Return None, bookkeeping, emptyWorld).
Proof.
  split; [reflexivity|].
  apply (Deploy_without_generator scenario.Unmarshal
           secrets.GenerateClusterSecretsWithFunc fakeClient "shoot--foo--bar"
           bookkeeping emptyWorld).
  reflexivity.
Defined.

Lemma Generate_without_generator_panics_witness :
  secretConfigGenerator bookkeeping = None ∧
  Generate bookkeeping emptyWorld = (Panic nilFuncCall, bookkeeping, emptyWorld) ∧
  (DeployIn bookkeeping emptyWorld).1.1 = Return None.
Proof.
  split; [reflexivity|].
  destruct (Generate_without_generator_panics scenario.Unmarshal
              secrets.GenerateClusterSecretsWithFunc fakeClient "shoot--foo--bar"
              bookkeeping emptyWorld eq_refl) as (Hpanic & _ & Hdeploy & _).
  split; [exact Hpanic|exact Hdeploy].
Defined.


Lemma Deploy_error_keeps_DeployedSecrets_witness :
  (DeployIn unsigned emptyWorld).1.1 = Return (Some "no signing authority") ∧
  cluster (DeployIn unsigned emptyWorld).2 = [caObject "fresh-ca"] ∧
  DeployedSecrets (DeployIn unsigned emptyWorld).1.2 = DeployedSecrets unsigned.
Proof.
  split; [reflexivity|]. split; [reflexivity|].
  apply (Deploy_error_keeps_DeployedSecrets scenario.Unmarshal
           secrets.GenerateClusterSecretsWithFunc fakeClient "shoot--foo--bar"
           unsigned emptyWorld "no signing authority").
  reflexivity.
Defined.

End Scenarios.

(** * Further properties of the manager *)

Section Coverage.
Context {Certificate StaticTokenT K : Type}.
Implicit Types (s : SecretsManager Certificate StaticTokenT) (w : World K).
Implicit Types (c config : secrets.ConfigInterface).

(** X2. [Generate] only appends to the record list, whatever it returns: the
    records it found stay where they are, the records it adds have distinct
    names, none of which had a record, and each is the name of one of the
    generator's configurations. *)
Theorem Generate_appends_records s w :
  ∃ added,
    GardenerResourceDataList (Generate s w).1.2 =
      GardenerResourceDataList s ++ added ∧
    NoDup (helper.Name <$> added) ∧
    ∀ rd, rd ∈ added →
      helper.Get (GardenerResourceDataList s) (helper.Name rd) = None ∧
      ∃ generator configs,
        secretConfigGenerator s = Some generator ∧
        generator (certificateAuthorities s) = Ok configs ∧
        helper.Name rd ∈ secrets.GetName <$> configs.
Proof.
  assert (∀ l : helper.GardenerResourceDataList,
            ∃ added : helper.GardenerResourceDataList,
              l = l ++ added ∧ NoDup (helper.Name <$> added) ∧
              ∀ rd, rd ∈ added →
                helper.Get (GardenerResourceDataList s) (helper.Name rd) = None ∧
                ∃ generator configs,
                  secretConfigGenerator s = Some generator ∧
                  generator (certificateAuthorities s) = Ok configs ∧
                  helper.Name rd ∈ secrets.GetName <$> configs) as Hsame.
  { intros l. exists []. rewrite app_nil_r. split_and!; [done|constructor|].
    intros rd. by rewrite elem_of_nil. }
  unfold Generate. destruct (secretConfigGenerator s) as [generator|]; [|apply Hsame].
  run. destruct (generator (certificateAuthorities s)) as [configs|e] eqn:Hconfigs;
    [|apply Hsame].
  destruct (generateAll configs s _) as [[err s1] w1] eqn:Hall. simpl.
  destruct (generateAll_trace _ _ _ _ _ _ Hall)
    as (added & names & failed & Hadded & _ & -> & _ & Hdup & Hnames).
  exists added. split_and!; [done|by apply NoDup_app in Hdup as [? _]|].
  intros rd Hrd.
  destruct (Hnames (helper.Name rd)) as [? ?].
  { apply elem_of_app. left. by apply list_elem_of_fmap_2. }
  split; [done|]. by exists generator, configs.
Qed.

(** X3. [Generate] keeps the names of the record list unique: a list with at
    most one record per name has at most one record per name afterwards. *)
Theorem Generate_keeps_names_unique s w :
  NoDup (helper.Name <$> GardenerResourceDataList s) →
  NoDup (helper.Name <$> GardenerResourceDataList (Generate s w).1.2).
Proof.
  intros Hdup.
  assert (∀ configs err s1 w0 w1,
            generateAll configs s w0 = (err, s1, w1) →
            NoDup (helper.Name <$> GardenerResourceDataList s1)) as Hall.
  { intros configs err s1 w0 w1 Hrun.
    destruct (generateAll_trace _ _ _ _ _ _ Hrun)
      as (added & names & failed & -> & _ & -> & _ & Hnames & Habsent).
    rewrite fmap_app. apply NoDup_app. split_and!.
    - done.
    - intros name Hold Hnew.
      destruct (Habsent name) as [Hnone _]; [apply elem_of_app; by left|].
      by apply Get_None_iff in Hnone.
    - by apply NoDup_app in Hnames as [? _]. }
  unfold Generate. destruct (secretConfigGenerator s) as [generator|]; [|done].
  run. destruct (generator (certificateAuthorities s)) as [configs|e]; [|done].
  destruct (generateAll configs s _) as [[err s1] w1] eqn:Hrun. simpl. eauto.
Qed.

(** X4. The calls of [Generate]: with a generator, the call to it, then
    synthesis calls only, each for a name that had no record when [Generate]
    was called; with none, no call. The client is not used: the cluster stays
    as it is. *)
Theorem Generate_calls s w :
  ∃ names,
    calls (Generate s w).2 =
      calls w ++
      match secretConfigGenerator s with
      | Some _ => CallSecretConfigGenerator :: (CallGenerateInfoData <$> names)
      | None => []
      end ∧
    (∀ name, name ∈ names →
       helper.Get (GardenerResourceDataList s) name = None) ∧
    cluster (Generate s w).2 = cluster w.
Proof.
  unfold Generate. destruct (secretConfigGenerator s) as [generator|].
  - run. destruct (generator (certificateAuthorities s)) as [configs|e].
    + destruct (generateAll configs s _) as [[err s1] w1] eqn:Hall. simpl.
      destruct (generateAll_trace _ _ _ _ _ _ Hall)
        as (added & names & failed & _ & Hcalls & _ & _ & _ & Hnames).
      destruct (generateAll_effect _ _ _ _ _ _ Hall) as (_ & Hcluster & _).
      exists names. split_and!; [|by intros ? [? ?]%Hnames|done].
      simpl in Hcalls. by rewrite Hcalls, <-(assoc_L (++)).
    + exists []. split_and!; [done| |done].
      intros name. by rewrite elem_of_nil.
  - exists []. split_and!; [by rewrite app_nil_r| |done].
    intros name. by rewrite elem_of_nil.
Qed.

Lemma generateAll_succeeds configs :
  ∀ s w,
  (∀ c history, c ∈ configs → calls w `prefix_of` history →
     helper.Get (GardenerResourceDataList s) (secrets.GetName c) = None →
     ∃ data bytes, secrets.GenerateInfoData c history = Ok data ∧
                   infodata.Marshal data = Ok bytes) →
  (generateAll configs s w).1.1 = None.
Proof.
  induction configs as [|c configs IH]; intros s w Hcan; [done|].
  rewrite generateAll_cons.
  destruct (generateInfoDataAndUpdateResourceList c s w) as [[err1 s1] w1] eqn:Hc.
  apply generateInfoData_cases in Hc as
    [(Hsome & -> & -> & ->)|[(Hnone & -> & -> & e & -> & Hwhy)|
     (Hnone & -> & -> & data & bytes & Hdata & Hbytes & ->)]].
  - apply IH. intros c' h Hc'. apply Hcan. by apply list_elem_of_further.
  - destruct (Hcan c (calls w) (list_elem_of_here _ _) (reflexivity _) Hnone)
      as (data & bytes & Hdata & Hbytes).
    destruct Hwhy as [?|(data' & ? & ?)]; congruence.
  - apply IH. simpl. intros c' h Hc' Hprefix Habsent. apply Hcan.
    + by apply list_elem_of_further.
    + etrans; [|exact Hprefix]. by apply prefix_app_r.
    + rewrite Get_app in Habsent.
      by destruct (helper.Get (GardenerResourceDataList s) (secrets.GetName c')).
Qed.

Lemma generateAll_error configs :
  ∀ s w e s' w',
  generateAll configs s w = (Some e, s', w') →
  ∃ c history, c ∈ configs ∧ calls w `prefix_of` history ∧
    helper.Get (GardenerResourceDataList s) (secrets.GetName c) = None ∧
    (secrets.GenerateInfoData c history = Err e ∨
     ∃ data, secrets.GenerateInfoData c history = Ok data ∧
             infodata.Marshal data = Err e).
Proof.
  induction configs as [|c configs IH]; intros s w e s' w'; [done|].
  rewrite generateAll_cons.
  destruct (generateInfoDataAndUpdateResourceList c s w) as [[err1 s1] w1] eqn:Hc.
  apply generateInfoData_cases in Hc as
    [(Hsome & -> & -> & ->)|[(Hnone & -> & -> & e1 & -> & Hwhy)|
     (Hnone & -> & -> & data & bytes & Hdata & Hbytes & ->)]].
  - intros (c' & h & ? & ? & ? & ?)%IH. exists c', h.
    split; [by apply list_elem_of_further|done].
  - intros [= -> _ _]. exists c, (calls w).
    split; [apply list_elem_of_here|done].
  - intros (c' & h & ? & Hprefix & Habsent & ?)%IH. exists c', h.
    split_and!; [by apply list_elem_of_further| | |done].
    + simpl in Hprefix. etrans; [|exact Hprefix]. by apply prefix_app_r.
    + simpl in Habsent. rewrite Get_app in Habsent.
      by destruct (helper.Get (GardenerResourceDataList s) (secrets.GetName c')).
Qed.

(** X5. [Generate] returns [nil] whenever the generator returns its
    configurations and every one of them that has no record can be synthesised
    and encoded, whenever it is asked from this call on. *)
Theorem Generate_succeeds s w generator configs :
  secretConfigGenerator s = Some generator →
  generator (certificateAuthorities s) = Ok configs →
  (∀ c history, c ∈ configs → calls w `prefix_of` history →
     helper.Get (GardenerResourceDataList s) (secrets.GetName c) = None →
     ∃ data bytes, secrets.GenerateInfoData c history = Ok data ∧
                   infodata.Marshal data = Ok bytes) →
  (Generate s w).1.1 = Return None.
Proof.
  intros Hgen Hconfigs Hcan. unfold Generate. rewrite Hgen. run.
  rewrite Hconfigs. unfold bind.
  assert ((generateAll configs s
             {| cluster := cluster w;
                calls := calls w ++ [CallSecretConfigGenerator] |}).1.1 = None)
    as Hrun.
  { apply generateAll_succeeds. simpl. intros c h Hc Hprefix. apply Hcan; [done|].
    etrans; [|exact Hprefix]. by apply prefix_app_r. }
  destruct (generateAll configs s _) as [[err s1] w1]. simpl in *. by rewrite Hrun.
Qed.

(** X6. Every error [Generate] returns is a collaborator's: the generator's,
    or the synthesis or encoding error of a configuration whose name had no
    record when [Generate] was called, synthesised during this call. *)
Theorem Generate_error_origin s w e :
  (Generate s w).1.1 = Return (Some e) →
  ∃ generator, secretConfigGenerator s = Some generator ∧
    (generator (certificateAuthorities s) = Err e ∨
     ∃ configs c history,
       generator (certificateAuthorities s) = Ok configs ∧ c ∈ configs ∧
       calls w `prefix_of` history ∧
       helper.Get (GardenerResourceDataList s) (secrets.GetName c) = None ∧
       (secrets.GenerateInfoData c history = Err e ∨
        ∃ data, secrets.GenerateInfoData c history = Ok data ∧
                infodata.Marshal data = Err e)).
Proof.
  unfold Generate. destruct (secretConfigGenerator s) as [generator|]; [|done].
  run. destruct (generator (certificateAuthorities s)) as [configs|e'] eqn:Hconfigs.
  - destruct (generateAll configs s _) as [[err s1] w1] eqn:Hall. simpl.
    intros [= ->]. apply generateAll_error in Hall as (c & h & ? & Hprefix & ? & ?).
    exists generator. split; [done|]. right. exists configs, c, h.
    split_and!; [done..| |done|done].
    simpl in Hprefix. etrans; [|exact Hprefix]. by apply prefix_app_r.
  - simpl. intros [= ->]. exists generator. eauto.
Qed.

Lemma generateInfoData_WithExistingSecrets existing c s w :
  generateInfoDataAndUpdateResourceList c (WithExistingSecrets existing s) w =
  ((generateInfoDataAndUpdateResourceList c s w).1.1,
   WithExistingSecrets existing (generateInfoDataAndUpdateResourceList c s w).1.2,
   (generateInfoDataAndUpdateResourceList c s w).2).
Proof.
  unfold generateInfoDataAndUpdateResourceList. simpl.
  destruct (helper.Get _ _); [done|]. run.
  destruct (secrets.GenerateInfoData c (calls w)) as [data|e]; [|done].
  by destruct (infodata.UpsertInfoData _ _ _).
Qed.

Lemma generateAll_WithExistingSecrets existing configs :
  ∀ s w,
  generateAll configs (WithExistingSecrets existing s) w =
  ((generateAll configs s w).1.1,
   WithExistingSecrets existing (generateAll configs s w).1.2,
   (generateAll configs s w).2).
Proof.
  induction configs as [|c configs IH]; intros s w; [done|].
  rewrite !generateAll_cons, generateInfoData_WithExistingSecrets.
  destruct (generateInfoDataAndUpdateResourceList c s w) as [[[e|] s1] w1];
    simpl; [done|apply IH].
Qed.

(** X8. [Generate] does not look at the existing secrets: on a manager given
    other existing secrets by [WithExistingSecrets] it returns the same, makes
    the same calls and leaves the same manager, up to those existing
    secrets. *)
Theorem Generate_ignores_existing_secrets existing s w :
  Generate (WithExistingSecrets existing s) w =
  ((Generate s w).1.1, WithExistingSecrets existing (Generate s w).1.2,
   (Generate s w).2).
Proof.
  unfold Generate. simpl. destruct (secretConfigGenerator s) as [generator|]; [|done].
  run. destruct (generator (certificateAuthorities s)) as [configs|e]; [|done].
  rewrite generateAll_WithExistingSecrets.
  by destruct (generateAll configs s _) as [[err s1] w1].
Qed.

Section Resolution.
Variable Unmarshal : helper.GardenerResourceData → result infodata.InfoData.

(** X9. Round trip of one record: when a configuration without a record is
    synthesised and encoded, and the decoder gives the material back from
    that record, the manager then resolves the configuration by
    [GenerateFromInfoData] on exactly the material [GenerateInfoData]
    returned. *)
Theorem generated_record_round_trip c s w data bytes :
  helper.Get (GardenerResourceDataList s) (secrets.GetName c) = None →
  secrets.GenerateInfoData c (calls w) = Ok data →
  infodata.Marshal data = Ok bytes →
  Unmarshal {| helper.Name := secrets.GetName c;
               helper.Type_ := infodata.TypeVersion data;
               helper.Data := bytes |} = Ok data →
  ∀ w2,
    getInfoDataAndGenerateSecret Unmarshal
      (generateInfoDataAndUpdateResourceList c s w).1.2 c w2 =
    (secrets.GenerateFromInfoData c data,
     {| cluster := cluster w2;
        calls := calls w2 ++ [CallGenerateFromInfoData (secrets.GetName c)] |}).
Proof.
  intros Hnone Hdata Hbytes Hdecode w2.
  destruct (generateInfoDataAndUpdateResourceList c s w) as [[err s1] w1] eqn:Hc.
  apply generateInfoData_cases in Hc as
    [([rd Hrd] & _)|[(_ & _ & _ & e & _ & Hwhy)|
     (_ & _ & _ & data' & bytes' & Hdata' & Hbytes' & ->)]].
  - congruence.
  - destruct Hwhy as [?|(data' & ? & ?)]; congruence.
  - assert (data' = data) as -> by congruence.
    assert (bytes' = bytes) as -> by congruence.
    unfold getInfoDataAndGenerateSecret, infodata.GetInfoData. simpl.
    pose proof (Get_snoc_absent (GardenerResourceDataList s)
                  {| helper.Name := secrets.GetName c;
                     helper.Type_ := infodata.TypeVersion data;
                     helper.Data := bytes |} Hnone) as Hget.
    simpl in Hget. by rewrite Hget, Hdecode.
Qed.

End Resolution.

Section Deploying.
Variable Unmarshal : helper.GardenerResourceData → result infodata.InfoData.
Variable GenerateClusterSecretsWithFunc :
  client.Client K → gmap string corev1.Secret → list secrets.ConfigInterface →
  string → (secrets.ConfigInterface → M K (result secrets.DataInterface)) →
  M K (result (gmap string corev1.Secret)).
Variable k8sClient : client.Client K.
Variable namespace : string.

(** What [Deploy] leaves of the manager: the manager itself, or the manager
    with the returned objects merged into its deployed secrets. *)
Lemma Deploy_manager s w :
  (Deploy Unmarshal GenerateClusterSecretsWithFunc k8sClient namespace s w).1.2 = s ∨
  ∃ generator configs deployedSecrets w1,
    secretConfigGenerator s = Some generator ∧
    generator (certificateAuthorities s) = Ok configs ∧
    GenerateClusterSecretsWithFunc k8sClient (existingSecrets s) configs namespace
      (getInfoDataAndGenerateSecret Unmarshal s) (afterGenerator w) =
      (Ok deployedSecrets, w1) ∧
    (Deploy Unmarshal GenerateClusterSecretsWithFunc k8sClient namespace s w).1.2 =
      setDeployedSecrets (deployedSecrets ∪ DeployedSecrets s) s.
Proof.
  unfold Deploy.
  destruct (secretConfigGenerator s) as [generator|] eqn:Hgen; [|by left].
  run. fold (afterGenerator w).
  destruct (generator (certificateAuthorities s)) as [configs|e] eqn:Hconfigs;
    [|by left].
  destruct (GenerateClusterSecretsWithFunc _ _ _ _ _ _) as [[deployed|e] w1]
    eqn:Hrun; simpl; [|by left].
  right. exists generator, configs, deployed, w1. by rewrite mergeDeployed_union.
Qed.

(** X11. [Deploy] never removes an entry of the deployed secrets, whatever
    the cluster secret generation does and whatever [Deploy] returns; and an
    entry differs from before only where the cluster secret generation
    returned an object under that name, which is then the entry. *)
Theorem Deploy_never_removes_entries s w :
  dom (DeployedSecrets s) ⊆
    dom (DeployedSecrets
           (Deploy Unmarshal GenerateClusterSecretsWithFunc k8sClient namespace
              s w).1.2) ∧
  ∀ name,
    DeployedSecrets
      (Deploy Unmarshal GenerateClusterSecretsWithFunc k8sClient namespace
         s w).1.2 !! name ≠ DeployedSecrets s !! name →
    ∃ generator configs deployedSecrets w1,
      secretConfigGenerator s = Some generator ∧
      generator (certificateAuthorities s) = Ok configs ∧
      GenerateClusterSecretsWithFunc k8sClient (existingSecrets s) configs
        namespace (getInfoDataAndGenerateSecret Unmarshal s) (afterGenerator w) =
        (Ok deployedSecrets, w1) ∧
      is_Some (deployedSecrets !! name) ∧
      DeployedSecrets
        (Deploy Unmarshal GenerateClusterSecretsWithFunc k8sClient namespace
           s w).1.2 !! name = deployedSecrets !! name.
Proof.
  destruct (Deploy_manager s w)
    as [->|(generator & configs & deployed & w1 & Hgen & Hconfigs & Hrun & ->)];
    [done|]. simpl. split.
  - rewrite dom_union. apply union_subseteq_r.
  - intros name Hname. exists generator, configs, deployed, w1.
    split_and!; [done..| |].
    + destruct (deployed !! name) as [secret|] eqn:Hd; [by eexists|].
      by rewrite lookup_union_r in Hname.
    + destruct (deployed !! name) as [secret|] eqn:Hd.
      * by apply lookup_union_Some_l.
      * by rewrite lookup_union_r in Hname.
Qed.

(** X13. [Deploy] does not undo what [Generate] recorded: when every
    configuration of the generator has a record, then after a [Deploy] of any
    outcome, with any cluster secret generation, every configuration still
    has its record, and a [Generate] returns [nil], changes nothing and calls
    nothing but the generator. *)
Theorem Deploy_does_not_undo_Generate s w generator configs :
  secretConfigGenerator s = Some generator →
  generator (certificateAuthorities s) = Ok configs →
  recorded s configs →
  recorded
    (Deploy Unmarshal GenerateClusterSecretsWithFunc k8sClient namespace s w).1.2
    configs ∧
  ∀ w2,
    Generate
      (Deploy Unmarshal GenerateClusterSecretsWithFunc k8sClient namespace
         s w).1.2 w2 =
    (Return None,
     (Deploy Unmarshal GenerateClusterSecretsWithFunc k8sClient namespace
        s w).1.2,
     afterGenerator w2).
Proof.
  intros Hgen Hconfigs Hrec.
  destruct (Deploy_manager s w) as [->|(_ & _ & deployed & _ & _ & _ & _ & ->)].
  - split; [done|]. intros w2. by apply (Generate_recorded _ _ generator configs).
  - split; [done|]. intros w2. by apply (Generate_recorded _ _ generator configs).
Qed.

End Deploying.

(** X12. The merge loop of [Deploy] does not depend on the order in which the
    [range] visits the returned map: visited in any order, the deployed
    secrets end up as the returned objects laid over the entries held
    before. *)
Theorem mergeInOrder_any_order (visit : list (string * corev1.Secret))
    (deployedSecrets into : gmap string corev1.Secret) :
  visit ≡ₚ map_to_list deployedSecrets →
  mergeInOrder visit into = mergeDeployed deployedSecrets into ∧
  mergeInOrder visit into = deployedSecrets ∪ into.
Proof.
  intros Hvisit. rewrite mergeDeployed_union.
  assert (mergeInOrder visit into = deployedSecrets ∪ into) as ->; [|done].
  assert (NoDup visit.*1) as Hdup.
  { rewrite Hvisit. apply NoDup_fst_map_to_list. }
  rewrite <-(list_to_map_to_list deployedSecrets).
  rewrite <-(list_to_map_proper _ _ Hdup Hvisit).
  clear Hvisit. unfold mergeInOrder. revert into.
  induction visit as [|[name secret] visit IH]; intros into; simpl.
  - by rewrite (left_id_L ∅ (∪)).
  - apply NoDup_cons in Hdup as [Hfresh Hdup]. rewrite IH by done.
    rewrite <-insert_union_l, insert_union_r; [done|].
    by apply not_elem_of_list_to_map_1.
Qed.

End Coverage.

(** * The further properties on the scenarios *)

Section FurtherScenarios.
Import scenario.

Lemma allConfigs_cases (P : secrets.ConfigInterface → Prop) :
  P ca → P token → ∀ c, c ∈ [ca; token] → P c.
Proof.
  intros Hca Htoken c [->|[->|[]%elem_of_nil]%elem_of_cons]%elem_of_cons; done.
Defined.

Lemma Generate_keeps_names_unique_witness :
  NoDup (helper.Name <$> GardenerResourceDataList reconciled) ∧
  NoDup (helper.Name <$>
           GardenerResourceDataList (Generate reconciled emptyWorld).1.2).
Proof.
  assert (NoDup (helper.Name <$> GardenerResourceDataList reconciled)) as Hdup
    by apply NoDup_singleton.
  split; [exact Hdup|].
  exact (Generate_keeps_names_unique reconciled emptyWorld Hdup).
Defined.

Lemma Generate_succeeds_witness :
  (Generate reconciled emptyWorld).1.1 = Return None.
Proof.
  apply (Generate_succeeds reconciled emptyWorld allConfigs [ca; token]);
    [reflexivity|reflexivity|].
  intros c history Hc _. revert c Hc.
  apply (allConfigs_cases
           (λ c, helper.Get (GardenerResourceDataList reconciled)
                   (secrets.GetName c) = None →
                 ∃ data bytes, secrets.GenerateInfoData c history = Ok data ∧
                               infodata.Marshal data = Ok bytes)).
  - intros _. eexists _, _. split; reflexivity.
  - intros _. eexists _, _. split; reflexivity.
Defined.

Lemma Generate_error_origin_witness :
  (Generate unsigned emptyWorld).1.1 = Return (Some "no signing authority") ∧
  ∃ generator, secretConfigGenerator unsigned = Some generator ∧
    (generator (certificateAuthorities unsigned) = Err "no signing authority" ∨
     ∃ configs c history,
       generator (certificateAuthorities unsigned) = Ok configs ∧ c ∈ configs ∧
       calls emptyWorld `prefix_of` history ∧
       helper.Get (GardenerResourceDataList unsigned) (secrets.GetName c) = None ∧
       (secrets.GenerateInfoData c history = Err "no signing authority" ∨
        ∃ data, secrets.GenerateInfoData c history = Ok data ∧
                infodata.Marshal data = Err "no signing authority")).
Proof.
  split; [reflexivity|].
  exact (Generate_error_origin unsigned emptyWorld "no signing authority" eq_refl).
Defined.

Lemma generated_record_round_trip_witness :
  getInfoDataAndGenerateSecret scenario.Unmarshal
    (generateInfoDataAndUpdateResourceList ca fresh emptyWorld).1.2 ca emptyWorld =
  (Ok (dataOf "ca.crt" "fresh-ca"),
   {| cluster := []; calls := [] ++ [CallGenerateFromInfoData "ca"] |}).
Proof.
  exact (generated_record_round_trip scenario.Unmarshal ca fresh emptyWorld
           (infoOf "certificate" "fresh-ca") (bytes "fresh-ca")
           eq_refl eq_refl eq_refl eq_refl emptyWorld).
Defined.

Lemma Deploy_does_not_undo_Generate_witness :
  recorded generated [ca; token] ∧
  (Deploy scenario.Unmarshal secrets.GenerateClusterSecretsWithFunc fakeClient
     "shoot--foo--bar" generated generatedWorld).1.1 = Return None ∧
  Generate
    (Deploy scenario.Unmarshal secrets.GenerateClusterSecretsWithFunc fakeClient
       "shoot--foo--bar" generated generatedWorld).1.2 emptyWorld =
  (Return None,
   (Deploy scenario.Unmarshal secrets.GenerateClusterSecretsWithFunc fakeClient
      "shoot--foo--bar" generated generatedWorld).1.2,
   afterGenerator emptyWorld).
Proof.
  assert (recorded generated [ca; token]) as Hrec
    by (repeat constructor; eexists; reflexivity).
  split; [exact Hrec|]. split; [reflexivity|].
  exact (proj2 (Deploy_does_not_undo_Generate scenario.Unmarshal
                  secrets.GenerateClusterSecretsWithFunc fakeClient
                  "shoot--foo--bar" generated generatedWorld allConfigs [ca; token]
                  eq_refl eq_refl Hrec) emptyWorld).
Defined.

Lemma mergeInOrder_any_order_witness :
  mergeInOrder [("kubeconfig-token", tokenObject); ("ca", caObject "stored-ca")]
    {[ "ca" := caObject "issued-earlier" ]} = reconciledObjects ∧
  mergeInOrder [("ca", caObject "stored-ca"); ("kubeconfig-token", tokenObject)]
    {[ "ca" := caObject "issued-earlier" ]} = reconciledObjects.
Proof.
  assert ([("kubeconfig-token", tokenObject); ("ca", caObject "stored-ca")]
            ≡ₚ map_to_list reconciledObjects) as Hone
    by (vm_compute; first [reflexivity | apply perm_swap]).
  assert ([("ca", caObject "stored-ca"); ("kubeconfig-token", tokenObject)]
            ≡ₚ map_to_list reconciledObjects) as Htwo
    by (vm_compute; first [reflexivity | apply perm_swap]).
  split.
  - rewrite (proj2 (mergeInOrder_any_order _ reconciledObjects
                      {[ "ca" := caObject "issued-earlier" ]} Hone)).
    vm_compute. reflexivity.
  - rewrite (proj2 (mergeInOrder_any_order _ reconciledObjects
                      {[ "ca" := caObject "issued-earlier" ]} Htwo)).
    vm_compute. reflexivity.
Defined.

End FurtherScenarios.
